(** * go-mtree keyword functions (keywordfuncs.go)

    A shallow embedding of the keyword extractors of package [mtree] and of
    the registry [KeywordFuncs], with the properties of its specification.

    Conventions of the embedding:
    - Go integers are [Z]; [int64] wrap-around is written out ([wrap64]).
    - Go strings are [string] (a sequence of bytes, so [String.length] is
      Go's [len]); byte slices are [list byte].
    - A Go result pair [(string, error)] is a pair [string * option error];
      a run-time panic is a separate outcome.
    - [os.Readlink] is the only operating-system call; extractors run in a
      small monad that reads the filesystem and logs each call. *)

From Stdlib Require Import ZArith String Ascii List Bool Lia.
From Stdlib Require Import Init.Byte.
From stdpp Require Import gmap strings list fin_maps.

Local Open Scope Z_scope.
Local Arguments String.append : simpl nomatch.

(* ===================================================================== *)
(** * Package fmt: the verbs used by the keyword functions               *)
(* ===================================================================== *)

Module fmt.

(** One digit, as Go's table ["0123456789abcdef"]. *)
Definition digit_char (d : Z) : ascii :=
  ascii_of_nat (Z.to_nat (if d <? 10 then 48 + d else 87 + d)).

(** The digit loop of [fmtInteger]: digits are produced from the least
    significant one and stored in front of what is already there. *)
Fixpoint fmt_digits (base : Z) (fuel : nat) (u : Z) (acc : string) : string :=
  match fuel with
  | O => acc
  | S k =>
      if u <? base then String (digit_char u) acc
      else fmt_digits base k (u / base) (String (digit_char (u mod base)) acc)
  end.

(** Digits of a non-negative number; the fuel is the bit length of [u],
    which bounds the number of digits in any base from 2 on. *)
Definition fmt_uint (base : Z) (u : Z) : string :=
  fmt_digits base (S (Z.to_nat (Z.log2 u))) u "".

Fixpoint zeros (n : nat) : string :=
  match n with O => "" | S k => String "0" (zeros k) end.

Fixpoint spaces (n : nat) : string :=
  match n with O => "" | S k => String " " (spaces k) end.

(** Precision of an integer verb: at least [prec] digits, zeros in front. *)
Definition pad_zeros (prec : nat) (s : string) : string :=
  zeros (prec - String.length s) +:+ s.

(** Width without the minus flag: spaces in front. *)
Definition pad_width (width : nat) (s : string) : string :=
  spaces (width - String.length s) +:+ s.

Definition sign (n : Z) : string := if n <? 0 then "-" else "".

(** [%d] of a signed integer. *)
Definition verb_d (n : Z) : string := sign n +:+ fmt_uint 10 (Z.abs n).

(** [%W.Pd]: precision pads the digits, the sign comes in front of them,
    and the width pads the whole with spaces. *)
Definition verb_d_wp (width prec : nat) (n : Z) : string :=
  pad_width width (sign n +:+ pad_zeros prec (fmt_uint 10 (Z.abs n))).

(** [%#o] of an unsigned integer: octal digits, with a ['0'] put in front
    unless the first digit already is ['0']. *)
Definition verb_sharp_o (u : Z) : string :=
  match fmt_uint 8 u with
  | String "0" _ as s => s
  | s => String "0" s
  end.

(** [%x] of a byte slice: two lower-case hexadecimal digits per byte. *)
Definition hex_byte (b : byte) : string :=
  let n := Z.of_N (Byte.to_N b) in
  String (digit_char (n / 16)) (String (digit_char (n mod 16)) "").

Fixpoint verb_x_bytes (bs : list byte) : string :=
  match bs with
  | [] => ""
  | b :: rest => hex_byte b +:+ verb_x_bytes rest
  end.

(** Reading digits back, used to state what a rendering denotes. *)
Definition digit_value (c : ascii) : option Z :=
  let n := Z.of_nat (nat_of_ascii c) in
  if (48 <=? n) && (n <=? 57) then Some (n - 48)
  else if (97 <=? n) && (n <=? 102) then Some (n - 87)
  else None.

Fixpoint parse_digits (base : Z) (s : string) (acc : Z) : option Z :=
  match s with
  | EmptyString => Some acc
  | String c rest =>
      match digit_value c with
      | Some d => if d <? base then parse_digits base rest (acc * base + d) else None
      | None => None
      end
  end.

Definition parse_octal (s : string) : option Z := parse_digits 8 s 0.
Definition parse_decimal (s : string) : option Z := parse_digits 10 s 0.

End fmt.

(* ===================================================================== *)
(** * Package os: file modes                                             *)
(* ===================================================================== *)

Module os.

(** [os.FileMode] is a [uint32]. *)
Definition FileMode := Z.

Definition ModeDir        : FileMode := Z.shiftl 1 31.
Definition ModeAppend     : FileMode := Z.shiftl 1 30.
Definition ModeExclusive  : FileMode := Z.shiftl 1 29.
Definition ModeTemporary  : FileMode := Z.shiftl 1 28.
Definition ModeSymlink    : FileMode := Z.shiftl 1 27.
Definition ModeDevice     : FileMode := Z.shiftl 1 26.
Definition ModeNamedPipe  : FileMode := Z.shiftl 1 25.
Definition ModeSocket     : FileMode := Z.shiftl 1 24.
Definition ModeSetuid     : FileMode := Z.shiftl 1 23.
Definition ModeSetgid     : FileMode := Z.shiftl 1 22.
Definition ModeCharDevice : FileMode := Z.shiftl 1 21.
Definition ModeSticky     : FileMode := Z.shiftl 1 20.
Definition ModeIrregular  : FileMode := Z.shiftl 1 19.

(** The mask of the type bits, as in the current Go library. Older releases
    leave [ModeCharDevice] and [ModeIrregular] out of it; the properties
    below use [IsRegular] as a whole and hold for either mask. *)
Definition ModeType : FileMode :=
  Z.lor ModeDir (Z.lor ModeSymlink (Z.lor ModeNamedPipe (Z.lor ModeSocket
    (Z.lor ModeDevice (Z.lor ModeCharDevice ModeIrregular))))).

Definition ModePerm : FileMode := 511. (* 0777 *)

Definition IsDir (m : FileMode) : bool := negb (Z.land m ModeDir =? 0).
Definition IsRegular (m : FileMode) : bool := Z.land m ModeType =? 0.
Definition Perm (m : FileMode) : FileMode := Z.land m ModePerm.

End os.

(* ===================================================================== *)
(** * Outcomes, errors and 64-bit integers                               *)
(* ===================================================================== *)

(** A Go [error] value, identified by its message. *)
Definition error := string.

(** What evaluating a Go expression or call ends in. *)
Inductive outcome (A : Type) : Type :=
  | Returns (a : A)
  | Panics (msg : string).
Arguments Returns {A} a.
Arguments Panics {A} msg.

Definition wrap64 (z : Z) : Z := (z + 2 ^ 63) mod 2 ^ 64 - 2 ^ 63.

(** [a / b] and [a % b] on [int64]: truncated towards zero, a panic when the
    divisor is zero. *)
Definition div64 (a b : Z) : outcome Z :=
  if b =? 0 then Panics "runtime error: integer divide by zero"
  else Returns (wrap64 (Z.quot a b)).

Definition rem64 (a b : Z) : outcome Z :=
  if b =? 0 then Panics "runtime error: integer divide by zero"
  else Returns (Z.rem a b).

(* ===================================================================== *)
(** * Packages time and archive/tar, and os.FileInfo                     *)
(* ===================================================================== *)

Module time.

(** An instant: seconds since the Unix epoch and the nanoseconds within
    that second. *)
Record Time := { sec : Z; nsec : Z }.

Definition Unix (t : Time) : Z := sec t.
Definition UnixNano (t : Time) : Z := wrap64 (sec t * 1000000000 + nsec t).

End time.

Module tar.

Record Header := {
  Typeflag : ascii;
  Name : string;
  Linkname : string;
  Size : Z;
  Mode : Z
}.

Definition TypeSymlink : ascii := "2".

End tar.

(** The value of [info.Sys()], an [interface{}]: the type assertion to a
    pointer to [tar.Header] succeeds on [SysTarHeader] only. The pointer held
    by an entry read from an archive refers to a header. *)
Inductive SysValue :=
  | SysNil
  | SysTarHeader (h : tar.Header)
  | SysOther.

Record FileInfo := {
  Name : string;
  Size : Z;
  Mode : os.FileMode;
  ModTime : time.Time;
  Sys : SysValue
}.

(* ===================================================================== *)
(** * Content streams and hashes                                         *)
(* ===================================================================== *)

(** What the successive calls of [Read] on a stream give: some bytes, the
    end of the stream, or an error. *)
Inductive stream :=
  | EOF
  | ReadErr (e : error)
  | Chunk (bs : list byte) (rest : stream).

(** An [io.Reader]; [None] is the nil interface value. *)
Definition Reader := option stream.

(** The part of [hash.Hash] the extractors use. [Write] of a hash never
    fails. A value of this type stands for a constructor such as [md5.New]:
    [init] is the fresh accumulator it returns. *)
Record Hash := {
  state : Type;
  init : state;
  Write : state -> list byte -> state;
  Sum : state -> list byte -> list byte
}.

(** The loop of [io.Copy] into a hash: every chunk read is written, an
    error other than the end of the stream stops the copy and is returned.
    The result is the accumulator, the number of bytes copied and the
    error. *)
Fixpoint copy_loop (h : Hash) (st : state h) (written : Z) (s : stream)
  : state h * Z * option error :=
  match s with
  | EOF => (st, written, None)
  | ReadErr e => (st, written, Some e)
  | Chunk bs rest => copy_loop h (Write h st bs) (written + Z.of_nat (length bs)) rest
  end.

Definition io_Copy (h : Hash) (st : state h) (src : Reader)
  : outcome (state h * Z * option error) :=
  match src with
  | None => Panics "runtime error: invalid memory address or nil pointer dereference"
  | Some s => Returns (copy_loop h st 0 s)
  end.

(* ===================================================================== *)
(** * Running an extractor: the filesystem and the log of its calls      *)
(* ===================================================================== *)

(** The state of the filesystem as [os.Readlink] sees it. *)
Record OS := { Readlink : string -> string * option error }.

Inductive event := EvReadlink (name : string).

Definition M (A : Type) : Type := OS -> list event * outcome A.

Definition ret {A} (a : A) : M A := fun _ => ([], Returns a).

Definition bind {A B} (m : M A) (k : A -> M B) : M B :=
  fun fs =>
    match m fs with
    | (tr, Returns a) => let (tr', o) := k a fs in (tr ++ tr', o)
    | (tr, Panics msg) => (tr, Panics msg)
    end.

Definition lift {A} (o : outcome A) : M A := fun _ => ([], o).

Definition os_Readlink (name : string) : M (string * option error) :=
  fun fs => ([EvReadlink name], Returns (Readlink fs name)).

#[export] Instance M_ret : MRet M := @ret.
#[export] Instance M_bind : MBind M := fun A B k m => bind m k.

(** The result pair of a keyword function. *)
Definition token := (string * option error)%type.

Definition KeywordFunc := string -> FileInfo -> Reader -> M token.

(* ===================================================================== *)
(** * The keyword functions                                              *)
(* ===================================================================== *)

(** What the file uses from elsewhere: the hash constructors of the Go
    library and of go.crypto, the package's own [cksum] and the keyword
    functions defined in other files of the package. *)
Class Collaborators := {
  md5_New : Hash;
  ripemd160_New : Hash;
  sha1_New : Hash;
  sha256_New : Hash;
  sha512_New384 : Hash;
  sha512_New : Hash;
  cksum : Reader -> outcome (Z * Z * option error);
  uidKeywordFunc : KeywordFunc;
  gidKeywordFunc : KeywordFunc;
  nlinkKeywordFunc : KeywordFunc;
  unameKeywordFunc : KeywordFunc;
  xattrKeywordFunc : KeywordFunc
}.

Definition modeKeywordFunc : KeywordFunc := fun path info r =>
  let permissions := os.Perm (Mode info) in
  let permissions :=
    if Z.land os.ModeSetuid (Mode info) >? 0
    then Z.lor permissions (Z.shiftl 1 11) else permissions in
  let permissions :=
    if Z.land os.ModeSetgid (Mode info) >? 0
    then Z.lor permissions (Z.shiftl 1 10) else permissions in
  let permissions :=
    if Z.land os.ModeSticky (Mode info) >? 0
    then Z.lor permissions (Z.shiftl 1 9) else permissions in
  ret ("mode=" +:+ fmt.verb_sharp_o permissions, None).

Definition sizeKeywordFunc : KeywordFunc := fun path info r =>
  match Sys info with
  | SysTarHeader sys =>
      if Ascii.eqb (tar.Typeflag sys) tar.TypeSymlink
      then ret ("size=" +:+ fmt.verb_d (Z.of_nat (String.length (tar.Linkname sys))), None)
      else ret ("size=" +:+ fmt.verb_d (Size info), None)
  | _ => ret ("size=" +:+ fmt.verb_d (Size info), None)
  end.

Definition cksumKeywordFunc `{Collaborators} : KeywordFunc := fun path info r =>
  if negb (os.IsRegular (Mode info)) then ret ("", None)
  else
    '(sum, _, err) ← lift (cksum r);
    match err with
    | Some e => ret ("", Some e)
    | None => ret ("cksum=" +:+ fmt.verb_d sum, None)
    end.

Definition hasherKeywordFunc (name : string) (newHash : Hash) : KeywordFunc :=
  fun path info r =>
    if negb (os.IsRegular (Mode info)) then ret ("", None)
    else
      let h := init newHash in
      '(h, _, err) ← lift (io_Copy newHash h r);
      match err with
      | Some e => ret ("", Some e)
      | None => ret (name +:+ "=" +:+ fmt.verb_x_bytes (Sum newHash h []), None)
      end.

Definition tartimeKeywordFunc : KeywordFunc := fun path info r =>
  ret ("tar_time=" +:+ fmt.verb_d (time.Unix (ModTime info)) +:+ ".000000000", None).

Definition timeKeywordFunc : KeywordFunc := fun path info r =>
  let t := time.UnixNano (ModTime info) in
  if t =? 0 then ret ("time=0.000000000", None)
  else
    q ← lift (div64 t 1000000000);
    d ← lift (div64 t 1000000000);
    m ← lift (rem64 t d);
    ret ("time=" +:+ fmt.verb_d q +:+ "." +:+ fmt.verb_d_wp 9 9 m, None).

Definition linkKeywordFunc : KeywordFunc := fun path info r =>
  match Sys info with
  | SysTarHeader sys =>
      if negb (String.eqb (tar.Linkname sys) "")
      then ret ("link=" +:+ tar.Linkname sys, None)
      else ret ("", None)
  | _ =>
      if negb (Z.land (Mode info) os.ModeSymlink =? 0) then
        '(str, err) ← os_Readlink path;
        match err with
        | Some e => ret ("", Some e)
        | None => ret ("link=" +:+ str, None)
        end
      else ret ("", None)
  end.

Definition typeKeywordFunc : KeywordFunc := fun path info r =>
  if os.IsDir (Mode info) then ret ("type=dir", None)
  else if os.IsRegular (Mode info) then ret ("type=file", None)
  else if negb (Z.land (Mode info) os.ModeSocket =? 0) then ret ("type=socket", None)
  else if negb (Z.land (Mode info) os.ModeSymlink =? 0) then ret ("type=link", None)
  else if negb (Z.land (Mode info) os.ModeNamedPipe =? 0) then ret ("type=fifo", None)
  else if negb (Z.land (Mode info) os.ModeDevice =? 0) then
    if negb (Z.land (Mode info) os.ModeCharDevice =? 0) then ret ("type=char", None)
    else ret ("type=device", None)
  else ret ("", None).

(** The map of all keywords and the functions that produce them. *)
Definition KeywordFuncs `{Collaborators} : gmap string KeywordFunc :=
  list_to_map [
    ("size", sizeKeywordFunc);
    ("type", typeKeywordFunc);
    ("time", timeKeywordFunc);
    ("link", linkKeywordFunc);
    ("uid", uidKeywordFunc);
    ("gid", gidKeywordFunc);
    ("nlink", nlinkKeywordFunc);
    ("uname", unameKeywordFunc);
    ("mode", modeKeywordFunc);
    ("cksum", cksumKeywordFunc);
    ("md5", hasherKeywordFunc "md5digest" md5_New);
    ("md5digest", hasherKeywordFunc "md5digest" md5_New);
    ("rmd160", hasherKeywordFunc "ripemd160digest" ripemd160_New);
    ("rmd160digest", hasherKeywordFunc "ripemd160digest" ripemd160_New);
    ("ripemd160digest", hasherKeywordFunc "ripemd160digest" ripemd160_New);
    ("sha1", hasherKeywordFunc "sha1digest" sha1_New);
    ("sha1digest", hasherKeywordFunc "sha1digest" sha1_New);
    ("sha256", hasherKeywordFunc "sha256digest" sha256_New);
    ("sha256digest", hasherKeywordFunc "sha256digest" sha256_New);
    ("sha384", hasherKeywordFunc "sha384digest" sha512_New384);
    ("sha384digest", hasherKeywordFunc "sha384digest" sha512_New384);
    ("sha512", hasherKeywordFunc "sha512digest" sha512_New);
    ("sha512digest", hasherKeywordFunc "sha512digest" sha512_New);
    ("tar_time", tartimeKeywordFunc);
    ("xattr", xattrKeywordFunc);
    ("xattrs", xattrKeywordFunc)
  ].

(* ===================================================================== *)
(** * Notions used to state the properties                               *)
(* ===================================================================== *)

(** A flag of a mode is set when the mode and the flag share a bit. *)
Definition flag_set (m flag : os.FileMode) : bool := negb (Z.land m flag =? 0).

(** A keyword function that returns [tok] and no error, without calling the
    operating system. *)
Definition returns_quietly (tok : string) : list event * outcome token :=
  ([], Returns (tok, None)).

(** ** Digest keywords *)

(** The digest keywords of the registry, each with the name its token
    carries. *)
Definition digest_names : list (string * string) :=
  [ ("md5", "md5digest"); ("md5digest", "md5digest");
    ("rmd160", "ripemd160digest"); ("rmd160digest", "ripemd160digest");
    ("ripemd160digest", "ripemd160digest");
    ("sha1", "sha1digest"); ("sha1digest", "sha1digest");
    ("sha256", "sha256digest"); ("sha256digest", "sha256digest");
    ("sha384", "sha384digest"); ("sha384digest", "sha384digest");
    ("sha512", "sha512digest"); ("sha512digest", "sha512digest") ].

Definition digest_keywords : list string := map fst digest_names.

(** Each digest keyword with its synonyms, as the comments of the registry
    give them. *)
Definition digest_synonyms : list (string * string) :=
  [ ("md5", "md5digest");
    ("rmd160", "rmd160digest"); ("rmd160", "ripemd160digest");
    ("sha1", "sha1digest");
    ("sha256", "sha256digest");
    ("sha384", "sha384digest");
    ("sha512", "sha512digest") ].

(** A stream that is read to its end without an error. *)
Fixpoint readable (s : stream) : bool :=
  match s with
  | EOF => true
  | ReadErr _ => false
  | Chunk _ rest => readable rest
  end.

(** All the bytes of a stream, in order. *)
Fixpoint content (s : stream) : list byte :=
  match s with
  | EOF | ReadErr _ => []
  | Chunk bs rest => bs ++ content rest
  end.

(** ** Mode *)

(** The traditional mode word: the permission bits with 04000, 02000 and
    01000 OR-ed in for set-user-id, set-group-id and sticky. *)
Definition mode_word (m : os.FileMode) : Z :=
  Z.lor (Z.lor (Z.lor (os.Perm m)
    (if flag_set m os.ModeSetuid then 2048 else 0))
    (if flag_set m os.ModeSetgid then 1024 else 0))
    (if flag_set m os.ModeSticky then 512 else 0).

(** ** Time *)

(** The fixed-divisor form: seconds and nine digits of nanoseconds. *)
Definition time_fixed_divisor (t : Z) : string :=
  "time=" +:+ fmt.verb_d (Z.quot t 1000000000) +:+ "." +:+
  fmt.verb_d_wp 9 9 (Z.rem t 1000000000).

(** ** Type *)

Inductive kind := KDir | KFile | KSocket | KLink | KFifo | KChar | KDevice.

(** The classifications in the order of the specification. *)
Definition check_order : list kind :=
  [KDir; KFile; KSocket; KLink; KFifo; KChar; KDevice].

Definition has_kind (m : os.FileMode) (k : kind) : bool :=
  match k with
  | KDir => os.IsDir m
  | KFile => os.IsRegular m
  | KSocket => flag_set m os.ModeSocket
  | KLink => flag_set m os.ModeSymlink
  | KFifo => flag_set m os.ModeNamedPipe
  | KChar => flag_set m os.ModeDevice && flag_set m os.ModeCharDevice
  | KDevice => flag_set m os.ModeDevice && negb (flag_set m os.ModeCharDevice)
  end.

Definition kind_token (k : kind) : string :=
  match k with
  | KDir => "type=dir"
  | KFile => "type=file"
  | KSocket => "type=socket"
  | KLink => "type=link"
  | KFifo => "type=fifo"
  | KChar => "type=char"
  | KDevice => "type=device"
  end.

(** The token of the first classification that applies, in the given
    order; the empty token when none does. *)
Definition first_match (m : os.FileMode) (order : list kind) : string :=
  match List.find (has_kind m) order with
  | Some k => kind_token k
  | None => ""
  end.

(** A well-formed mode has at most one classification. *)
Definition well_formed (m : os.FileMode) : Prop :=
  (length (List.filter (has_kind m) check_order) <= 1)%nat.

(** ** Link *)

(** The link target an archive recorded for the entry, when it is not
    empty. *)
Definition archive_target (info : FileInfo) : option string :=
  match Sys info with
  | SysTarHeader h => if String.eqb (tar.Linkname h) "" then None else Some (tar.Linkname h)
  | _ => None
  end.

Definition archive_origin (info : FileInfo) : bool :=
  match Sys info with SysTarHeader _ => true | _ => false end.

(** The extractor reads the link at [path], once, and returns its target, or
    the error of the read. *)
Definition link_read_from_filesystem
    (fs : OS) (path : string) (info : FileInfo) (r : Reader) : Prop :=
  linkKeywordFunc path info r fs =
    ([EvReadlink path],
     Returns (match Readlink fs path with
              | (_, Some e) => ("", Some e)
              | (target, None) => ("link=" +:+ target, None)
              end)).

(* ===================================================================== *)
(** * Concrete entries, streams and collaborators                        *)
(* ===================================================================== *)

Module Examples.

(** A toy hash: the sum of the bytes modulo 256. *)
Definition byte_of_Z (z : Z) : byte :=
  match Byte.of_N (Z.to_N (z mod 256)) with Some b => b | None => x00 end.

Definition sum8_New : Hash := {|
  state := Z;
  init := 0;
  Write := fun st bs => fold_left (fun a b => (a + Z.of_N (Byte.to_N b)) mod 256) bs st;
  Sum := fun st b => b ++ [byte_of_Z st]
|}.

Definition constKeywordFunc (tok : string) : KeywordFunc :=
  fun _ _ _ => ret (tok, None).

#[local] Instance toy : Collaborators := {|
  md5_New := sum8_New;
  ripemd160_New := sum8_New;
  sha1_New := sum8_New;
  sha256_New := sum8_New;
  sha512_New384 := sum8_New;
  sha512_New := sum8_New;
  cksum := fun r =>
    match r with
    | None => Panics "runtime error: invalid memory address or nil pointer dereference"
    | Some s => Returns (0, Z.of_nat (length (content s)), None)
    end;
  uidKeywordFunc := constKeywordFunc "uid=0";
  gidKeywordFunc := constKeywordFunc "gid=0";
  nlinkKeywordFunc := constKeywordFunc "nlink=1";
  unameKeywordFunc := constKeywordFunc "uname=root";
  xattrKeywordFunc := constKeywordFunc ""
|}.

(** A filesystem in which every path is a link to ["target.txt"], and one
    in which no link can be read. *)
Definition fs_links : OS := {| Readlink := fun _ => ("target.txt", None) |}.
Definition fs_broken : OS := {| Readlink := fun _ => ("", Some "readlink: no such file or directory") |}.

Definition epoch : time.Time := {| time.sec := 0; time.nsec := 0 |}.

Definition entry (m : os.FileMode) (t : time.Time) (sys : SysValue) : FileInfo :=
  {| Name := "entry"; Size := 4096; Mode := m; ModTime := t; Sys := sys |}.

Definition directory : FileInfo := entry (Z.lor os.ModeDir 493) epoch SysOther.
Definition setgid_file : FileInfo := entry (Z.lor os.ModeSetgid 420) epoch SysOther.
Definition live_symlink : FileInfo := entry (Z.lor os.ModeSymlink 511) epoch SysOther.

Definition header (flag : ascii) (target : string) : tar.Header :=
  {| tar.Typeflag := flag; tar.Name := "entry"; tar.Linkname := target;
     tar.Size := 0; tar.Mode := 511 |}.

Definition archive_symlink (target : string) : FileInfo :=
  entry (Z.lor os.ModeSymlink 511) epoch (SysTarHeader (header tar.TypeSymlink target)).

(** Half a second, and one and a half seconds, after the epoch. *)
Definition half_second : time.Time := {| time.sec := 0; time.nsec := 500000000 |}.
Definition one_and_a_half : time.Time := {| time.sec := 1; time.nsec := 500000000 |}.

Definition hello : stream := Chunk [x68; x65] (Chunk [x6c; x6c; x6f] EOF).

End Examples.

(* ===================================================================== *)
(** * Notions for the further properties of the file                     *)
(* ===================================================================== *)

(** The keys of the registry, in the order of the map literal. *)
Definition keyword_names : list string :=
  [ "size"; "type"; "time"; "link"; "uid"; "gid"; "nlink"; "uname"; "mode";
    "cksum"; "md5"; "md5digest"; "rmd160"; "rmd160digest"; "ripemd160digest";
    "sha1"; "sha1digest"; "sha256"; "sha256digest"; "sha384"; "sha384digest";
    "sha512"; "sha512digest"; "tar_time"; "xattr"; "xattrs" ].

(** The keys whose functions are defined in other files of the package. *)
Definition external_keywords : list string :=
  [ "uid"; "gid"; "nlink"; "uname"; "xattr"; "xattrs" ].

(** The name in front of [=] in the tokens of a keyword: the key itself,
    but for the digests. *)
Definition token_name (k : string) : string :=
  match List.find (fun p => String.eqb (fst p) k) digest_names with
  | Some (_, c) => c
  | None => k
  end.

(** The first error a stream gives, if it gives one. *)
Fixpoint stream_error (s : stream) : option error :=
  match s with
  | EOF => None
  | ReadErr e => Some e
  | Chunk _ rest => stream_error rest
  end.

(** The accumulator after the chunks of a stream were written to it one by
    one, up to the end of the stream or its first error. *)
Fixpoint write_chunks (h : Hash) (st : state h) (s : stream) : state h :=
  match s with
  | Chunk bs rest => write_chunks h (Write h st bs) rest
  | _ => st
  end.

(** A hash for which writing in pieces is writing the whole, as the
    [io.Writer] contract of [hash.Hash] has it. *)
Definition streaming (h : Hash) : Prop :=
  (forall st, Write h st [] = st)
  /\ (forall st a b, Write h (Write h st a) b = Write h st (a ++ b)).

(** The outcome of a run is a panic. *)
Definition panicked {A} (res : list event * outcome A) : bool :=
  match res with
  | (_, Panics _) => true
  | (_, Returns _) => false
  end.

(** The calls of the operating system a run made. *)
Definition calls {A} (res : list event * outcome A) : list event := fst res.

(** The discipline of results: a run ends in a panic, in an error with the
    empty token, or in no error with a token that is empty or starts with
    the name and [=]. *)
Definition well_shaped (name : string) (res : list event * outcome token) : Prop :=
  match res with
  | (_, Panics _) => True
  | (_, Returns (tok, Some _)) => tok = ""
  | (_, Returns (tok, None)) => tok = "" \/ String.prefix (name +:+ "=") tok = true
  end.

Module MoreExamples.

(** 2016-04-07 03:33:20.123456789 UTC. *)
Definition april_2016 : time.Time := {| time.sec := 1460000000; time.nsec := 123456789 |}.

Definition whole_second : time.Time := {| time.sec := 1460000000; time.nsec := 0 |}.

Definition regular_file : FileInfo := Examples.entry 420 april_2016 SysOther.

Definition irregular_file : FileInfo :=
  Examples.entry (Z.lor os.ModeIrregular 420) april_2016 SysOther.

(** A stream that fails after two bytes. *)
Definition failing : stream := Chunk [x68; x65] (ReadErr "read: input/output error").

(** The bytes of [Examples.hello], read in one piece. *)
Definition hello_whole : stream := Chunk [x68; x65; x6c; x6c; x6f] EOF.

End MoreExamples.

(* ===================================================================== *)
(** * Facts about the formatting verbs                                   *)
(* ===================================================================== *)

Module fmt_facts.
Import fmt.

Lemma digit_value_digit_char (d : Z) :
  0 <= d < 16 -> digit_value (digit_char d) = Some d.
Proof.
  intros Hd.
  assert (Hcases : In d (map Z.of_nat (seq 0 16))).
  { apply in_map_iff. exists (Z.to_nat d). split; [lia|]. apply in_seq. lia. }
  simpl in Hcases.
  repeat (destruct Hcases as [<- | Hcases]; [reflexivity|]).
  contradiction.
Qed.

Lemma append_assoc (a b c : string) : (a +:+ b) +:+ c = a +:+ (b +:+ c).
Proof. induction a as [|x a IH]; simpl; [reflexivity | now rewrite IH]. Qed.

Lemma fmt_digits_acc (base : Z) (fuel : nat) :
  forall u acc, fmt_digits base fuel u acc = fmt_digits base fuel u "" +:+ acc.
Proof.
  induction fuel as [|k IH]; intros u acc; simpl; [reflexivity|].
  destruct (u <? base); [reflexivity|].
  rewrite (IH _ (String _ acc)), (IH _ (String _ "")).
  now rewrite append_assoc.
Qed.

Lemma parse_digits_app (base : Z) (s1 s2 : string) :
  forall acc,
    parse_digits base (s1 +:+ s2) acc =
    match parse_digits base s1 acc with
    | Some v => parse_digits base s2 v
    | None => None
    end.
Proof.
  induction s1 as [|c s1 IH]; intros acc; simpl; [reflexivity|].
  destruct (digit_value c) as [d|]; [|reflexivity].
  destruct (d <? base); [apply IH | reflexivity].
Qed.

Lemma parse_one_digit (base d acc : Z) :
  0 <= d < base -> base <= 16 ->
  parse_digits base (String (digit_char d) "") acc = Some (acc * base + d).
Proof.
  intros Hd Hb. simpl. rewrite digit_value_digit_char by lia.
  destruct (Z.ltb_spec d base); [reflexivity | lia].
Qed.

Lemma parse_fmt_digits (base : Z) (fuel : nat) :
  2 <= base <= 16 ->
  forall u, 0 <= u < 2 ^ Z.of_nat fuel ->
    parse_digits base (fmt_digits base fuel u "") 0 = Some u.
Proof.
  intros Hb. induction fuel as [|k IH]; intros u Hu.
  - simpl in *. f_equal. lia.
  - simpl. destruct (Z.ltb_spec u base) as [Hlt|Hge].
    + rewrite parse_one_digit by lia. f_equal; lia.
    + rewrite fmt_digits_acc, parse_digits_app.
      rewrite IH.
      * rewrite parse_one_digit by (pose proof (Z.mod_pos_bound u base); lia).
        f_equal. pose proof (Z.div_mod u base). lia.
      * rewrite Nat2Z.inj_succ, Z.pow_succ_r in Hu by lia.
        split; [apply Z.div_pos; lia|].
        apply Z.div_lt_upper_bound; [lia|]. nia.
Qed.

Lemma parse_fmt_uint (base u : Z) :
  2 <= base <= 16 -> 0 <= u -> parse_digits base (fmt_uint base u) 0 = Some u.
Proof.
  intros Hb Hu. unfold fmt_uint. apply parse_fmt_digits; [assumption|].
  split; [assumption|].
  rewrite Nat2Z.inj_succ, Z2Nat.id by apply Z.log2_nonneg.
  destruct (Z.eq_dec u 0) as [->|Hne]; [reflexivity|].
  apply Z.log2_spec. lia.
Qed.

Lemma verb_sharp_o_leading_zero (u : Z) :
  exists rest, verb_sharp_o u = String "0" rest.
Proof.
  unfold verb_sharp_o. destruct (fmt_uint 8 u) as [|c s]; [now eexists|].
  destruct (Ascii.ascii_dec c "0") as [->|Hne]; [now eexists|].
  exists (String c s).
  destruct c as [[] [] [] [] [] [] [] []]; try reflexivity. now contradict Hne.
Qed.

Lemma parse_octal_verb_sharp_o (u : Z) :
  0 <= u -> parse_octal (verb_sharp_o u) = Some u.
Proof.
  intros Hu. unfold parse_octal, verb_sharp_o.
  pose proof (parse_fmt_uint 8 u ltac:(lia) Hu) as Hp.
  destruct (fmt_uint 8 u) as [|c s]; [exact Hp|].
  destruct c as [[] [] [] [] [] [] [] []]; exact Hp.
Qed.

Lemma parse_decimal_verb_d (n : Z) :
  0 <= n -> parse_decimal (verb_d n) = Some n.
Proof.
  intros Hn. unfold parse_decimal, verb_d, sign.
  destruct (Z.ltb_spec n 0); [lia|]. simpl.
  rewrite Z.abs_eq by assumption. apply parse_fmt_uint; lia.
Qed.

End fmt_facts.

(* ===================================================================== *)
(** * Facts about modes                                                  *)
(* ===================================================================== *)

Lemma flag_test (m flag : os.FileMode) :
  0 <= flag -> (Z.land flag m >? 0) = flag_set m flag.
Proof.
  intros Hf. unfold flag_set. rewrite (Z.land_comm flag m).
  assert (0 <= Z.land m flag) by (apply Z.land_nonneg; now right).
  destruct (Z.eqb_spec (Z.land m flag) 0) as [->|Hne]; simpl; [reflexivity|].
  apply Z.gtb_lt. lia.
Qed.

Lemma Perm_range (m : os.FileMode) : 0 <= os.Perm m < 512.
Proof.
  unfold os.Perm, os.ModePerm. change 511 with (Z.ones 9).
  rewrite Z.land_ones by lia. apply Z.mod_pos_bound. reflexivity.
Qed.

Lemma lor_flags_sum (p : Z) (a b c : bool) :
  0 <= p < 512 ->
  Z.lor (Z.lor (Z.lor p (if a then 2048 else 0)) (if b then 1024 else 0))
        (if c then 512 else 0)
  = p + (if a then 2048 else 0) + (if b then 1024 else 0) + (if c then 512 else 0).
Proof.
  intros Hp.
  assert (Hall : forallb (fun n : nat =>
            forallb (fun abc : bool * bool * bool => let '(a, b, c) := abc in
              Z.lor (Z.lor (Z.lor (Z.of_nat n) (if a then 2048 else 0))
                           (if b then 1024 else 0)) (if c then 512 else 0)
              =? Z.of_nat n + (if a then 2048 else 0) + (if b then 1024 else 0)
                 + (if c then 512 else 0))
              (list_prod (list_prod [true; false] [true; false]) [true; false]))
            (seq 0 512) = true) by (vm_compute; reflexivity).
  rewrite forallb_forall in Hall.
  specialize (Hall (Z.to_nat p) ltac:(apply in_seq; lia)).
  rewrite forallb_forall in Hall.
  specialize (Hall (a, b, c)). simpl in Hall.
  rewrite Z2Nat.id in Hall by lia.
  apply Z.eqb_eq, Hall.
  destruct a, b, c; simpl; tauto.
Qed.

Lemma mode_word_sum (m : os.FileMode) :
  mode_word m =
    os.Perm m
    + (if flag_set m os.ModeSetuid then 2048 else 0)
    + (if flag_set m os.ModeSetgid then 1024 else 0)
    + (if flag_set m os.ModeSticky then 512 else 0).
Proof. unfold mode_word. apply lor_flags_sum, Perm_range. Qed.

Lemma mode_word_nonneg (m : os.FileMode) : 0 <= mode_word m.
Proof.
  rewrite mode_word_sum. pose proof (Perm_range m).
  destruct (flag_set m os.ModeSetuid), (flag_set m os.ModeSetgid),
    (flag_set m os.ModeSticky); lia.
Qed.

Lemma modeKeywordFunc_word path info r fs :
  modeKeywordFunc path info r fs =
    returns_quietly ("mode=" +:+ fmt.verb_sharp_o (mode_word (Mode info))).
Proof.
  unfold modeKeywordFunc, mode_word, returns_quietly.
  rewrite !flag_test by (vm_compute; discriminate).
  destruct (flag_set (Mode info) os.ModeSetuid),
    (flag_set (Mode info) os.ModeSetgid),
    (flag_set (Mode info) os.ModeSticky);
    rewrite ?Z.lor_0_r; reflexivity.
Qed.

(** C5. The mode extractor returns [mode=] followed by an octal numeral with
    a leading 0 that denotes the permission bits with 04000, 02000 and 01000
    OR-ed in for set-user-id, set-group-id and sticky; the three flags add to
    the permission bits without touching them, and permission 0644 with
    set-group-id alone gives [mode=02644]. *)
Theorem mode_keyword_octal_word path info r fs :
  exists s,
    modeKeywordFunc path info r fs = returns_quietly ("mode=" +:+ s)
    /\ (exists rest, s = String "0" rest)
    /\ fmt.parse_octal s = Some (mode_word (Mode info))
    /\ mode_word (Mode info) =
         os.Perm (Mode info)
         + (if flag_set (Mode info) os.ModeSetuid then 2048 else 0)
         + (if flag_set (Mode info) os.ModeSetgid then 1024 else 0)
         + (if flag_set (Mode info) os.ModeSticky then 512 else 0)
    /\ (os.Perm (Mode info) = 420 ->
        flag_set (Mode info) os.ModeSetuid = false ->
        flag_set (Mode info) os.ModeSetgid = true ->
        flag_set (Mode info) os.ModeSticky = false ->
        s = "02644").
Proof.
  exists (fmt.verb_sharp_o (mode_word (Mode info))).
  split; [apply modeKeywordFunc_word|].
  split; [apply fmt_facts.verb_sharp_o_leading_zero|].
  split; [apply fmt_facts.parse_octal_verb_sharp_o, mode_word_nonneg|].
  split; [apply mode_word_sum|].
  intros Hp Hu Hg Hs. rewrite mode_word_sum, Hp, Hu, Hg, Hs. reflexivity.
Qed.

Lemma mode_keyword_octal_word_witness :
  modeKeywordFunc "entry" Examples.setgid_file None Examples.fs_links
    = returns_quietly "mode=02644".
Proof.
  destruct (mode_keyword_octal_word "entry" Examples.setgid_file None Examples.fs_links)
    as (s & Hrun & _ & _ & _ & Hex).
  rewrite Hrun.
  rewrite (Hex eq_refl eq_refl eq_refl eq_refl). reflexivity.
Defined.

(* ===================================================================== *)
(** * Size                                                               *)
(* ===================================================================== *)

(** C6. For an entry from an archive whose type flag is symlink, the size
    extractor returns [size=<n>] with [n] the byte length of the recorded
    link target, whatever the size of the metadata (target ["abc"] gives
    [size=3]); for every other entry it returns [size=] followed by the size
    of the metadata. *)
Theorem size_keyword_archive_symlink path info r fs :
  (forall h, Sys info = SysTarHeader h -> tar.Typeflag h = tar.TypeSymlink ->
     let n := Z.of_nat (String.length (tar.Linkname h)) in
     sizeKeywordFunc path info r fs = returns_quietly ("size=" +:+ fmt.verb_d n)
     /\ fmt.parse_decimal (fmt.verb_d n) = Some n
     /\ (tar.Linkname h = "abc" ->
         sizeKeywordFunc path info r fs = returns_quietly "size=3"))
  /\ ((forall h, Sys info = SysTarHeader h -> tar.Typeflag h <> tar.TypeSymlink) ->
      sizeKeywordFunc path info r fs =
        returns_quietly ("size=" +:+ fmt.verb_d (Size info))).
Proof.
  unfold sizeKeywordFunc, returns_quietly. split.
  - intros h Hsys Hflag. rewrite Hsys, Hflag. simpl.
    split; [reflexivity|].
    split; [apply fmt_facts.parse_decimal_verb_d; lia|].
    intros Habc. rewrite Habc. reflexivity.
  - intros Hother. destruct (Sys info) as [|h|]; try reflexivity.
    destruct (Ascii.eqb_spec (tar.Typeflag h) tar.TypeSymlink) as [Heq|Hne];
      [|reflexivity].
    now destruct (Hother h eq_refl).
Qed.

Lemma size_keyword_archive_symlink_witness :
  sizeKeywordFunc "entry" (Examples.archive_symlink "abc") None Examples.fs_links
    = returns_quietly "size=3"
  /\ sizeKeywordFunc "entry" Examples.directory None Examples.fs_links
    = returns_quietly "size=4096".
Proof.
  split.
  - apply (proj1 (size_keyword_archive_symlink "entry"
             (Examples.archive_symlink "abc") None Examples.fs_links)
             (Examples.header tar.TypeSymlink "abc") eq_refl eq_refl).
    reflexivity.
  - apply (proj2 (size_keyword_archive_symlink "entry"
             Examples.directory None Examples.fs_links)).
    intros h Hsys. discriminate Hsys.
Defined.

(* ===================================================================== *)
(** * Type                                                               *)
(* ===================================================================== *)

(** The extractor checks the classifications in the order of
    [check_order], for any mode. *)
Lemma typeKeywordFunc_first_match path info r fs :
  typeKeywordFunc path info r fs =
    returns_quietly (first_match (Mode info) check_order).
Proof.
  unfold typeKeywordFunc, first_match, check_order, has_kind, flag_set,
    returns_quietly. simpl.
  destruct (os.IsDir (Mode info)); [reflexivity|].
  destruct (os.IsRegular (Mode info)); [reflexivity|].
  destruct (negb (Z.land (Mode info) os.ModeSocket =? 0)); [reflexivity|].
  destruct (negb (Z.land (Mode info) os.ModeSymlink =? 0)); [reflexivity|].
  destruct (negb (Z.land (Mode info) os.ModeNamedPipe =? 0)); [reflexivity|].
  destruct (negb (Z.land (Mode info) os.ModeDevice =? 0)); [|reflexivity].
  destruct (negb (Z.land (Mode info) os.ModeCharDevice =? 0)); reflexivity.
Qed.

Lemma kind_token_not_empty (k : kind) : kind_token k <> "".
Proof. destruct k; discriminate. Qed.

Lemma first_match_empty (m : os.FileMode) :
  first_match m check_order = "" <-> forall k, has_kind m k = false.
Proof.
  unfold first_match. split.
  - destruct (List.find (has_kind m) check_order) as [k|] eqn:Hfind.
    + intros He. now destruct (kind_token_not_empty k).
    + intros _ k. apply (find_none _ _ Hfind).
      unfold check_order. destruct k; simpl; tauto.
  - intros Hnone.
    destruct (List.find (has_kind m) check_order) as [k|] eqn:Hfind; [|reflexivity].
    apply find_some in Hfind. rewrite Hnone in Hfind. now destruct Hfind.
Qed.

(** With at most one classification, the one that applies is the first
    match, whatever its place in the order. *)
Lemma first_match_unique (m : os.FileMode) (k : kind) :
  well_formed m -> has_kind m k = true ->
  first_match m check_order = kind_token k.
Proof.
  unfold well_formed, first_match, check_order.
  generalize (has_kind m). intros f Hwf Hk. simpl in *.
  destruct k; rewrite Hk in *;
    destruct (f KDir), (f KFile), (f KSocket), (f KLink), (f KFifo),
      (f KChar), (f KDevice);
    simpl in *; try reflexivity; try discriminate; lia.
Qed.

(** C7. On a well-formed entry the type extractor returns the token of the
    first classification that applies, in the order directory, regular
    file, socket, symlink, named pipe, character device, block device; that
    is the token of the one classification the entry has; and it returns the
    empty token, with no error, exactly when no classification applies. *)
Theorem type_keyword_classifies path info r fs :
  well_formed (Mode info) ->
  typeKeywordFunc path info r fs =
    returns_quietly (first_match (Mode info) check_order)
  /\ (forall k, has_kind (Mode info) k = true ->
        typeKeywordFunc path info r fs = returns_quietly (kind_token k))
  /\ (typeKeywordFunc path info r fs = returns_quietly "" <->
        forall k, has_kind (Mode info) k = false).
Proof.
  intros Hwf. rewrite typeKeywordFunc_first_match. split; [reflexivity|]. split.
  - intros k Hk. now rewrite (first_match_unique _ k Hwf Hk).
  - rewrite <- first_match_empty. unfold returns_quietly. split.
    + intros He. now inversion He.
    + now intros ->.
Qed.

Lemma well_formed_directory : well_formed (Mode Examples.directory).
Proof. vm_compute. lia. Qed.

Lemma type_keyword_classifies_witness :
  typeKeywordFunc "entry" Examples.directory None Examples.fs_links
    = returns_quietly "type=dir".
Proof.
  apply (proj1 (proj2 (type_keyword_classifies "entry" Examples.directory None
                         Examples.fs_links well_formed_directory)) KDir).
  reflexivity.
Defined.

(* ===================================================================== *)
(** * Link                                                               *)
(* ===================================================================== *)

(** C8. For an entry from an archive with a non-empty recorded link target,
    the link extractor returns [link=] followed by that target and no
    error, and its run makes no call of [os.Readlink]. *)
Theorem link_keyword_archive_target path info r fs h :
  Sys info = SysTarHeader h -> tar.Linkname h <> "" ->
  linkKeywordFunc path info r fs = returns_quietly ("link=" +:+ tar.Linkname h).
Proof.
  intros Hsys Hne. unfold linkKeywordFunc. rewrite Hsys.
  destruct (String.eqb_spec (tar.Linkname h) ""); [contradiction | reflexivity].
Qed.

Lemma link_keyword_archive_target_witness :
  linkKeywordFunc "entry" (Examples.archive_symlink "target.txt") None
    Examples.fs_broken = returns_quietly "link=target.txt".
Proof.
  apply (link_keyword_archive_target "entry"
           (Examples.archive_symlink "target.txt") None Examples.fs_broken
           (Examples.header tar.TypeSymlink "target.txt") eq_refl).
  discriminate.
Defined.

(** C9, as stated, fails: an entry from an archive whose recorded link
    target is empty and whose mode is a symlink gets the empty token, and
    the link is not read. *)
Lemma link_keyword_archive_empty_target_counterexample :
  archive_target (Examples.archive_symlink "") = None
  /\ flag_set (Mode (Examples.archive_symlink "")) os.ModeSymlink = true
  /\ linkKeywordFunc "entry" (Examples.archive_symlink "") None Examples.fs_links
       = returns_quietly ""
  /\ ~ link_read_from_filesystem Examples.fs_links "entry"
         (Examples.archive_symlink "") None.
Proof.
  repeat split; try reflexivity.
  unfold link_read_from_filesystem. vm_compute. discriminate.
Qed.

(** C9, amended. For an entry with no non-empty recorded link target whose
    mode is a symlink: when the entry does not come from an archive, the
    link extractor reads the link at the path of the entry and returns
    [link=] followed by the target, or the error of the read and no token;
    when it comes from an archive, the extractor returns the empty token and
    no error, and reads nothing. *)
Theorem link_keyword_symlink_read fs path info r :
  archive_target info = None ->
  flag_set (Mode info) os.ModeSymlink = true ->
  (archive_origin info = false -> link_read_from_filesystem fs path info r)
  /\ (archive_origin info = true ->
      linkKeywordFunc path info r fs = returns_quietly "").
Proof.
  unfold archive_target, archive_origin, link_read_from_filesystem,
    linkKeywordFunc, flag_set.
  intros Htarget Hlink. rewrite Hlink.
  destruct (Sys info) as [|h|]; (split; [intros Ho | intros Ho]);
    try discriminate Ho.
  - unfold mbind, M_bind, bind, os_Readlink.
    destruct (Readlink fs path) as [target [e|]]; reflexivity.
  - destruct (String.eqb (tar.Linkname h) ""); [reflexivity | discriminate].
  - unfold mbind, M_bind, bind, os_Readlink.
    destruct (Readlink fs path) as [target [e|]]; reflexivity.
Qed.

Lemma link_keyword_symlink_read_witness :
  linkKeywordFunc "entry" Examples.live_symlink None Examples.fs_links
    = ([EvReadlink "entry"], Returns ("link=target.txt", None))
  /\ linkKeywordFunc "entry" Examples.live_symlink None Examples.fs_broken
    = ([EvReadlink "entry"],
       Returns ("", Some "readlink: no such file or directory"))
  /\ linkKeywordFunc "entry" (Examples.archive_symlink "") None Examples.fs_links
    = returns_quietly "".
Proof.
  split; [|split].
  - apply (proj1 (link_keyword_symlink_read Examples.fs_links "entry"
                    Examples.live_symlink None eq_refl eq_refl) eq_refl).
  - apply (proj1 (link_keyword_symlink_read Examples.fs_broken "entry"
                    Examples.live_symlink None eq_refl eq_refl) eq_refl).
  - apply (proj2 (link_keyword_symlink_read Examples.fs_links "entry"
                    (Examples.archive_symlink "") None eq_refl eq_refl) eq_refl).
Defined.

(* ===================================================================== *)
(** * Digests and cksum                                                  *)
(* ===================================================================== *)

Section Digests.

Context `{Collaborators}.

(** Each digest keyword is registered to the generic extractor, under the
    name its token carries. *)
Lemma digest_lookup (k c : string) :
  In (k, c) digest_names ->
  exists newHash, KeywordFuncs !! k = Some (hasherKeywordFunc c newHash).
Proof.
  unfold digest_names. simpl. intros Hin.
  repeat (destruct Hin as [Heq | Hin];
          [injection Heq as <- <-; eexists; reflexivity|]).
  contradiction.
Qed.

Lemma hasherKeywordFunc_not_regular name newHash path info r fs :
  os.IsRegular (Mode info) = false ->
  hasherKeywordFunc name newHash path info r fs = returns_quietly "".
Proof. intros Hreg. unfold hasherKeywordFunc. now rewrite Hreg. Qed.

Lemma cksumKeywordFunc_not_regular path info r fs :
  os.IsRegular (Mode info) = false ->
  cksumKeywordFunc path info r fs = returns_quietly "".
Proof. intros Hreg. unfold cksumKeywordFunc. now rewrite Hreg. Qed.

(** On a regular file the digest extractor copies the stream into a fresh
    accumulator; an error of the copy is returned, otherwise the token is
    the name, [=] and the digest in hexadecimal. *)
Lemma hasherKeywordFunc_regular name newHash path info s fs :
  os.IsRegular (Mode info) = true ->
  hasherKeywordFunc name newHash path info (Some s) fs =
    match copy_loop newHash (init newHash) 0 s with
    | (_, _, Some e) => ([], Returns ("", Some e))
    | (st, _, None) =>
        returns_quietly (name +:+ "=" +:+ fmt.verb_x_bytes (Sum newHash st []))
    end.
Proof.
  intros Hreg. unfold hasherKeywordFunc. rewrite Hreg. simpl.
  unfold mbind, M_bind, bind, lift, io_Copy.
  destruct (copy_loop newHash (init newHash) 0 s) as [[st n] [e|]]; reflexivity.
Qed.

Lemma hasherKeywordFunc_nil_reader name newHash path info fs :
  os.IsRegular (Mode info) = true ->
  exists msg, hasherKeywordFunc name newHash path info None fs = ([], Panics msg).
Proof.
  intros Hreg. unfold hasherKeywordFunc. rewrite Hreg. now eexists.
Qed.

Lemma copy_loop_readable newHash s :
  readable s = true ->
  forall st n, snd (copy_loop newHash st n s) = None.
Proof.
  induction s as [|e|bs rest IH]; simpl; intros Hr st n;
    [reflexivity | discriminate | now apply IH].
Qed.

Lemma prefix_append (a b : string) : String.prefix a (a +:+ b) = true.
Proof.
  induction a as [|c a IH]; simpl; [now destruct b|].
  destruct (Ascii.ascii_dec c c); [exact IH | contradiction].
Qed.

Lemma prefix_name_token (name digest : string) :
  String.prefix (name +:+ "=") (name +:+ "=" +:+ digest) = true.
Proof. rewrite <- fmt_facts.append_assoc. apply prefix_append. Qed.

(** C1. On an entry that is not a regular file, [cksum] and every digest
    keyword of the registry return the empty token and no error, whatever
    the content stream (the nil reader included). *)
Theorem content_keywords_skip_non_regular path info r fs (k : string) :
  os.IsRegular (Mode info) = false ->
  In k ("cksum" :: digest_keywords) ->
  exists f, KeywordFuncs !! k = Some f
            /\ f path info r fs = returns_quietly "".
Proof.
  intros Hreg [<- | Hin].
  - exists cksumKeywordFunc. split; [reflexivity|].
    now apply cksumKeywordFunc_not_regular.
  - unfold digest_keywords in Hin. apply in_map_iff in Hin.
    destruct Hin as ([k' c] & <- & Hin). simpl.
    destruct (digest_lookup k' c Hin) as [newHash Hlook].
    eexists. split; [exact Hlook|].
    now apply hasherKeywordFunc_not_regular.
Qed.

(** C4. A digest keyword and each of its synonyms are registered to
    functions that return the same token and the same error on every
    entry and content stream. *)
Theorem digest_synonyms_agree (k s : string) :
  In (k, s) digest_synonyms ->
  exists f g, KeywordFuncs !! k = Some f
              /\ KeywordFuncs !! s = Some g
              /\ forall path info r fs, f path info r fs = g path info r fs.
Proof.
  unfold digest_synonyms. simpl. intros Hin.
  repeat (destruct Hin as [Heq | Hin];
          [injection Heq as <- <-;
           eexists; eexists; split; [reflexivity|]; split; [reflexivity|];
           reflexivity|]).
  contradiction.
Qed.

(** C10. On a regular file, the token of a digest keyword starts with the
    name of the algorithm followed by [digest=], not with the keyword that
    was asked for when the two differ; and a stream that is read without
    an error does give such a token. *)
Theorem digest_token_canonical_name (k c : string) path info r fs :
  In (k, c) digest_names ->
  os.IsRegular (Mode info) = true ->
  exists f, KeywordFuncs !! k = Some f
    /\ (forall tr tok, f path info r fs = (tr, Returns (tok, None)) ->
          String.prefix (c +:+ "=") tok = true
          /\ (k <> c -> String.prefix (k +:+ "=") tok = false))
    /\ (forall s, r = Some s -> readable s = true ->
          exists digest,
            f path info r fs = returns_quietly (c +:+ "=" +:+ fmt.verb_x_bytes digest)).
Proof.
  intros Hin Hreg.
  destruct (digest_lookup k c Hin) as [newHash Hlook].
  eexists. split; [exact Hlook|]. split.
  - intros tr tok Hrun.
    destruct r as [s|].
    + rewrite hasherKeywordFunc_regular in Hrun by assumption.
      destruct (copy_loop newHash (init newHash) 0 s) as [[st n] [e|]];
        [discriminate Hrun|].
      injection Hrun as _ <-.
      split; [apply prefix_name_token|].
      unfold digest_names in Hin. simpl in Hin.
      repeat (destruct Hin as [Heq | Hin];
              [injection Heq as <- <-;
               intros Hne; try reflexivity; now contradict Hne|]).
      contradiction.
    + destruct (hasherKeywordFunc_nil_reader c newHash path info fs Hreg) as [msg Hp].
      rewrite Hp in Hrun. discriminate Hrun.
  - intros s -> Hread.
    rewrite hasherKeywordFunc_regular by assumption.
    pose proof (copy_loop_readable newHash s Hread (init newHash) 0) as Hnone.
    destruct (copy_loop newHash (init newHash) 0 s) as [[st n] err].
    simpl in Hnone. subst err. now eexists.
Qed.

End Digests.

Lemma content_keywords_skip_non_regular_witness :
  exists f, @KeywordFuncs Examples.toy !! "sha256" = Some f
            /\ f "entry" Examples.directory (Some Examples.hello) Examples.fs_links
               = returns_quietly "".
Proof.
  apply (@content_keywords_skip_non_regular Examples.toy "entry"
           Examples.directory (Some Examples.hello) Examples.fs_links "sha256").
  - reflexivity.
  - unfold digest_keywords, digest_names. simpl. tauto.
Defined.

Lemma digest_synonyms_agree_witness :
  exists f g, @KeywordFuncs Examples.toy !! "sha1" = Some f
              /\ @KeywordFuncs Examples.toy !! "sha1digest" = Some g
              /\ forall path info r fs, f path info r fs = g path info r fs.
Proof.
  apply (@digest_synonyms_agree Examples.toy "sha1" "sha1digest").
  unfold digest_synonyms. simpl. tauto.
Defined.

Lemma digest_token_canonical_name_witness :
  exists f, @KeywordFuncs Examples.toy !! "rmd160" = Some f
    /\ (forall tr tok,
          f "entry" Examples.setgid_file (Some Examples.hello) Examples.fs_links
            = (tr, Returns (tok, None)) ->
          String.prefix "ripemd160digest=" tok = true
          /\ ("rmd160" <> "ripemd160digest" -> String.prefix "rmd160=" tok = false))
    /\ (forall s, Some Examples.hello = Some s -> readable s = true ->
          exists digest,
            f "entry" Examples.setgid_file (Some Examples.hello) Examples.fs_links
              = returns_quietly ("ripemd160digest=" +:+ fmt.verb_x_bytes digest)).
Proof.
  apply (@digest_token_canonical_name Examples.toy "rmd160" "ripemd160digest"
           "entry" Examples.setgid_file (Some Examples.hello) Examples.fs_links).
  - unfold digest_names. simpl. tauto.
  - reflexivity.
Defined.

(* ===================================================================== *)
(** * Time                                                               *)
(* ===================================================================== *)

Lemma wrap64_range (z : Z) : - 2 ^ 63 <= wrap64 z < 2 ^ 63.
Proof.
  unfold wrap64. pose proof (Z.mod_pos_bound (z + 2 ^ 63) (2 ^ 64) eq_refl). lia.
Qed.

Lemma wrap64_small (z : Z) : - 2 ^ 63 <= z < 2 ^ 63 -> wrap64 z = z.
Proof. intros Hz. unfold wrap64. rewrite Z.mod_small; lia. Qed.

Lemma timeKeywordFunc_zero path info r fs :
  time.UnixNano (ModTime info) = 0 ->
  timeKeywordFunc path info r fs = returns_quietly "time=0.000000000".
Proof. intros Ht. unfold timeKeywordFunc. now rewrite Ht. Qed.

(** Within a second of the epoch, the epoch apart, the seconds are zero and
    the remainder by them panics. *)
Lemma timeKeywordFunc_panics path info r fs :
  time.UnixNano (ModTime info) <> 0 ->
  - 1000000000 < time.UnixNano (ModTime info) < 1000000000 ->
  timeKeywordFunc path info r fs =
    ([], Panics "runtime error: integer divide by zero").
Proof.
  intros Hne Hsmall. unfold timeKeywordFunc.
  destruct (Z.eqb_spec (time.UnixNano (ModTime info)) 0) as [|_]; [contradiction|].
  assert (Hq : Z.quot (time.UnixNano (ModTime info)) 1000000000 = 0)
    by (apply Z.quot_small_iff; lia).
  unfold mbind, M_bind, bind, lift, div64, rem64. simpl.
  rewrite Hq. reflexivity.
Qed.

(** From one second on, the remainder by the seconds is the remainder by
    1e9 whenever the nanoseconds are below the seconds: there the extractor
    agrees with the fixed-divisor form. *)
Lemma timeKeywordFunc_agrees path info r fs :
  0 <= Z.rem (time.UnixNano (ModTime info)) 1000000000
    < Z.quot (time.UnixNano (ModTime info)) 1000000000 ->
  timeKeywordFunc path info r fs =
    returns_quietly (time_fixed_divisor (time.UnixNano (ModTime info))).
Proof.
  set (t := time.UnixNano (ModTime info)). intros Hr.
  pose proof (wrap64_range (time.sec (ModTime info) * 1000000000
                            + time.nsec (ModTime info))) as Hrange.
  fold (time.UnixNano (ModTime info)) in Hrange. fold t in Hrange.
  pose proof (Z.quot_rem' t 1000000000) as Hqr.
  assert (Hpos : 0 < t) by lia.
  assert (Hq : wrap64 (Z.quot t 1000000000) = Z.quot t 1000000000).
  { apply wrap64_small. pose proof (Z.quot_pos t 1000000000). lia. }
  assert (Hrem : Z.rem t (Z.quot t 1000000000) = Z.rem t 1000000000).
  { rewrite (Z.rem_mod_nonneg t (Z.quot t 1000000000)) by lia.
    symmetry. apply (Z.mod_unique_pos _ _ 1000000000); lia. }
  unfold timeKeywordFunc, time_fixed_divisor, returns_quietly. fold t.
  destruct (Z.eqb_spec t 0) as [|_]; [lia|].
  unfold mbind, M_bind, bind, lift, div64, rem64. simpl.
  rewrite Hq.
  destruct (Z.eqb_spec (Z.quot t 1000000000) 0) as [|_]; [lia|].
  rewrite Hrem. reflexivity.
Qed.

(** C2. The time extractor is not total: for a modification time half a
    second after the epoch the seconds are zero, and the remainder by them
    panics. *)
Theorem time_keyword_divides_by_zero path r fs :
  timeKeywordFunc path (Examples.entry 420 Examples.half_second SysOther) r fs
    = ([], Panics "runtime error: integer divide by zero").
Proof. reflexivity. Qed.

(** C3. The time extractor differs from the fixed-divisor form: for a
    modification time one and a half seconds after the epoch it returns
    [time=1.000000000], the fixed-divisor form being [time=1.500000000]. *)
Theorem time_keyword_loses_nanoseconds path r fs :
  time.UnixNano Examples.one_and_a_half = 1500000000
  /\ timeKeywordFunc path (Examples.entry 420 Examples.one_and_a_half SysOther) r fs
       = returns_quietly "time=1.000000000"
  /\ time_fixed_divisor (time.UnixNano Examples.one_and_a_half)
       = "time=1.500000000".
Proof. repeat split; reflexivity. Qed.

(* ===================================================================== *)
(** * The registry as a whole                                            *)
(* ===================================================================== *)


(* ===================================================================== *)
(** * The registry as a whole                                            *)
(* ===================================================================== *)

Section Registry.

Context `{Collaborators}.

(** X1. A name resolves in the registry exactly when it is one of its 26
    keys; any other name, the empty one included, is not found. *)
Theorem registry_keys (k : string) :
  is_Some (KeywordFuncs !! k) <-> In k keyword_names.
Proof.
  unfold KeywordFuncs. rewrite <- elem_of_dom, dom_list_to_map_L.
  rewrite elem_of_list_to_set, list_elem_of_In. reflexivity.
Qed.

(** To prove a property of the functions this file registers, it is enough
    to prove it of each of the eight functions the file defines. *)
Lemma registry_local_ind (P : string -> KeywordFunc -> Prop) :
  P "size" sizeKeywordFunc ->
  P "type" typeKeywordFunc ->
  P "time" timeKeywordFunc ->
  P "link" linkKeywordFunc ->
  P "mode" modeKeywordFunc ->
  P "cksum" cksumKeywordFunc ->
  P "tar_time" tartimeKeywordFunc ->
  (forall k c newHash, In (k, c) digest_names -> P k (hasherKeywordFunc c newHash)) ->
  forall k f, KeywordFuncs !! k = Some f -> ~ In k external_keywords -> P k f.
Proof.
  intros Hsize Htype Htime Hlink Hmode Hcksum Htar Hdigest k f Hlook Hext.
  unfold KeywordFuncs in Hlook.
  apply elem_of_list_to_map_2, list_elem_of_In in Hlook.
  simpl in Hlook.
  repeat (destruct Hlook as [Heq | Hlook];
          [injection Heq as <- <-;
           first
             [ assumption
             | apply Hdigest; unfold digest_names; simpl; tauto
             | exfalso; apply Hext; unfold external_keywords; simpl; tauto ]
          |]).
  contradiction.
Qed.

End Registry.

(* ===================================================================== *)
(** * How each function runs                                             *)
(* ===================================================================== *)

Lemma sizeKeywordFunc_runs path info r fs :
  exists n, sizeKeywordFunc path info r fs = returns_quietly ("size=" +:+ fmt.verb_d n).
Proof.
  unfold sizeKeywordFunc.
  destruct (Sys info) as [|h|]; [| destruct (Ascii.eqb _ _) |]; now eexists.
Qed.

Lemma tartimeKeywordFunc_runs path info r fs :
  tartimeKeywordFunc path info r fs =
    returns_quietly ("tar_time=" +:+ fmt.verb_d (time.sec (ModTime info))
                     +:+ ".000000000").
Proof. reflexivity. Qed.

Lemma quot_in_range (t : Z) :
  - 2 ^ 63 <= t < 2 ^ 63 ->
  wrap64 (Z.quot t 1000000000) = Z.quot t 1000000000.
Proof.
  intros Hrange. apply wrap64_small.
  Z.quot_rem_to_equations. lia.
Qed.

(** The three ways the time extractor runs: the epoch, the rest of the two
    seconds around it, and all other instants. *)
Lemma timeKeywordFunc_cases path info r fs :
  let t := time.UnixNano (ModTime info) in
  (t = 0 /\ timeKeywordFunc path info r fs = returns_quietly "time=0.000000000")
  \/ (t <> 0 /\ - 1000000000 < t < 1000000000
      /\ timeKeywordFunc path info r fs =
           ([], Panics "runtime error: integer divide by zero"))
  \/ ((t <= - 1000000000 \/ 1000000000 <= t)
      /\ timeKeywordFunc path info r fs =
           returns_quietly
             ("time=" +:+ fmt.verb_d (Z.quot t 1000000000) +:+ "." +:+
              fmt.verb_d_wp 9 9 (Z.rem t (Z.quot t 1000000000)))).
Proof.
  intros t.
  destruct (Z.eq_dec t 0) as [Hz|Hnz].
  { left. split; [assumption|]. now apply timeKeywordFunc_zero. }
  destruct (Z_lt_dec (- 1000000000) t) as [Hlo|Hlo];
    [destruct (Z_lt_dec t 1000000000) as [Hhi|Hhi]|].
  { right. left. split; [assumption|]. split; [lia|].
    apply timeKeywordFunc_panics; [assumption | fold t; lia]. }
  all: right; right; (split; [lia|]).
  all: pose proof (wrap64_range (time.sec (ModTime info) * 1000000000
                                 + time.nsec (ModTime info))) as Hrange;
       fold (time.UnixNano (ModTime info)) in Hrange; fold t in Hrange.
  all: assert (Hq : Z.quot t 1000000000 <> 0)
         by (rewrite Z.quot_small_iff by lia; lia).
  all: assert (Hw : wrap64 (Z.quot t 1000000000) = Z.quot t 1000000000)
         by (now apply quot_in_range).
  all: unfold timeKeywordFunc, returns_quietly; fold t.
  all: destruct (Z.eqb_spec t 0) as [|_]; [contradiction|].
  all: unfold mbind, M_bind, bind, lift, div64, rem64; simpl.
  all: rewrite Hw.
  all: destruct (Z.eqb_spec (Z.quot t 1000000000) 0) as [|_]; [contradiction|].
  all: reflexivity.
Qed.

(** The four ways the link extractor runs. *)
Lemma linkKeywordFunc_cases path info r fs :
  linkKeywordFunc path info r fs =
    match Sys info with
    | SysTarHeader h =>
        if String.eqb (tar.Linkname h) "" then returns_quietly ""
        else returns_quietly ("link=" +:+ tar.Linkname h)
    | _ =>
        if flag_set (Mode info) os.ModeSymlink then
          ([EvReadlink path],
           Returns (match Readlink fs path with
                    | (_, Some e) => ("", Some e)
                    | (target, None) => ("link=" +:+ target, None)
                    end))
        else returns_quietly ""
    end.
Proof.
  unfold linkKeywordFunc, flag_set, returns_quietly.
  destruct (Sys info) as [|h|].
  - destruct (negb (Z.land (Mode info) os.ModeSymlink =? 0)); [|reflexivity].
    unfold mbind, M_bind, bind, os_Readlink.
    destruct (Readlink fs path) as [target [e|]]; reflexivity.
  - destruct (String.eqb (tar.Linkname h) ""); reflexivity.
  - destruct (negb (Z.land (Mode info) os.ModeSymlink =? 0)); [|reflexivity].
    unfold mbind, M_bind, bind, os_Readlink.
    destruct (Readlink fs path) as [target [e|]]; reflexivity.
Qed.

Lemma cksumKeywordFunc_regular `{Collaborators} path info r fs :
  os.IsRegular (Mode info) = true ->
  cksumKeywordFunc path info r fs =
    match cksum r with
    | Panics msg => ([], Panics msg)
    | Returns (_, _, Some e) => ([], Returns ("", Some e))
    | Returns (sum, _, None) => returns_quietly ("cksum=" +:+ fmt.verb_d sum)
    end.
Proof.
  intros Hreg. unfold cksumKeywordFunc. rewrite Hreg. simpl.
  unfold mbind, M_bind, bind, lift.
  destruct (cksum r) as [[[sum n] [e|]]|msg]; reflexivity.
Qed.

(** The copy into a hash writes the chunks up to the first error and
    returns that error. *)
Lemma copy_loop_spec (h : Hash) (s : stream) :
  forall st n,
    fst (fst (copy_loop h st n s)) = write_chunks h st s
    /\ snd (copy_loop h st n s) = stream_error s.
Proof.
  induction s as [|e|bs rest IH]; simpl; intros st n; try (split; reflexivity).
  apply IH.
Qed.

(* ===================================================================== *)
(** * Results across the registry                                        *)
(* ===================================================================== *)

Lemma well_shaped_token (name v : string) :
  well_shaped name (returns_quietly (name +:+ "=" +:+ v)).
Proof. right. apply prefix_name_token. Qed.

Lemma well_shaped_empty (name : string) : well_shaped name (returns_quietly "").
Proof. now left. Qed.

Lemma well_shaped_hasher (name : string) (newHash : Hash) path info r fs :
  well_shaped name (hasherKeywordFunc name newHash path info r fs).
Proof.
  destruct (os.IsRegular (Mode info)) eqn:Hreg.
  - destruct r as [s|].
    + rewrite hasherKeywordFunc_regular by assumption.
      destruct (copy_loop newHash (init newHash) 0 s) as [[st n] [e|]];
        [reflexivity | apply well_shaped_token].
    + destruct (hasherKeywordFunc_nil_reader name newHash path info fs Hreg)
        as [msg ->]. exact I.
  - rewrite hasherKeywordFunc_not_regular by assumption. apply well_shaped_empty.
Qed.

Section RegistryResults.

Context `{Collaborators}.

(** X2. Whatever the entry, the stream and the filesystem, a function this
    file registers ends in a panic, in an error with the empty token, or in
    no error with a token that is either empty or starts with the name of
    the keyword (for a digest, the name of its algorithm) and [=]: an error
    never comes with a token, and no token carries another keyword's
    name. *)
Theorem registry_results_well_shaped (k : string) (f : KeywordFunc) path info r fs :
  KeywordFuncs !! k = Some f ->
  ~ In k external_keywords ->
  well_shaped (token_name k) (f path info r fs).
Proof.
  intros Hlook Hext. revert path info r fs.
  apply (registry_local_ind
           (fun k f => forall path info r fs,
                well_shaped (token_name k) (f path info r fs)));
    try assumption; clear k f Hlook Hext.
  - intros path info r fs.
    destruct (sizeKeywordFunc_runs path info r fs) as [n ->].
    apply (well_shaped_token "size").
  - intros path info r fs. rewrite typeKeywordFunc_first_match.
    unfold first_match.
    destruct (List.find (has_kind (Mode info)) check_order) as [[]|];
      first [apply well_shaped_empty | now right].
  - intros path info r fs.
    destruct (timeKeywordFunc_cases path info r fs)
      as [[_ ->] | [(_ & _ & ->) | [_ ->]]];
      [now right | exact I | apply (well_shaped_token "time")].
  - intros path info r fs. rewrite linkKeywordFunc_cases.
    destruct (Sys info) as [|h|];
      [| destruct (String.eqb _ _);
         [apply well_shaped_empty | apply (well_shaped_token "link")] |];
      (destruct (flag_set _ _); [|apply well_shaped_empty]);
      (destruct (Readlink fs path) as [target [e|]];
       [reflexivity | apply (well_shaped_token "link")]).
  - intros path info r fs. rewrite modeKeywordFunc_word.
    apply (well_shaped_token "mode").
  - intros path info r fs.
    destruct (os.IsRegular (Mode info)) eqn:Hreg.
    + rewrite cksumKeywordFunc_regular by assumption.
      destruct (cksum r) as [[[sum n] [e|]]|msg];
        [reflexivity | apply (well_shaped_token "cksum") | exact I].
    + rewrite cksumKeywordFunc_not_regular by assumption.
      apply well_shaped_empty.
  - intros path info r fs. rewrite tartimeKeywordFunc_runs.
    apply (well_shaped_token "tar_time").
  - intros k c newHash Hin path info r fs.
    assert (Hname : token_name k = c).
    { unfold digest_names in Hin. simpl in Hin.
      repeat (destruct Hin as [Heq | Hin]; [now injection Heq as <- <-|]).
      contradiction. }
    rewrite Hname. apply well_shaped_hasher.
Qed.


End RegistryResults.

Lemma registry_results_well_shaped_witness :
  well_shaped "sha256digest"
    (hasherKeywordFunc "sha256digest" Examples.sum8_New "entry"
       MoreExamples.regular_file (Some MoreExamples.failing) Examples.fs_links).
Proof.
  apply (@registry_results_well_shaped Examples.toy "sha256"
           (hasherKeywordFunc "sha256digest" Examples.sum8_New) "entry"
           MoreExamples.regular_file (Some MoreExamples.failing) Examples.fs_links).
  - reflexivity.
  - unfold external_keywords. simpl. intros Hin.
    repeat (destruct Hin as [Heq | Hin]; [discriminate Heq|]). contradiction.
Defined.


(* ===================================================================== *)
(** * More on time and tar_time                                          *)
(* ===================================================================== *)

Module fmt_lengths.
Import fmt.

Lemma length_append (a b : string) :
  String.length (a +:+ b) = (String.length a + String.length b)%nat.
Proof. induction a as [|c a IH]; simpl; [reflexivity | now rewrite IH]. Qed.

Lemma length_zeros (n : nat) : String.length (zeros n) = n.
Proof. induction n as [|n IH]; simpl; [reflexivity | now rewrite IH]. Qed.

(** A number below [base ^ (k + 1)] has at most [k + 1] digits. *)
Lemma length_fmt_digits (base : Z) (fuel : nat) :
  2 <= base ->
  forall (k : nat) (u : Z), 0 <= u < base ^ Z.of_nat (S k) ->
    (String.length (fmt_digits base fuel u "") <= S k)%nat.
Proof.
  intros Hb. induction fuel as [|f IH]; intros k u Hu; simpl; [lia|].
  destruct (Z.ltb_spec u base) as [Hlt|Hge]; [simpl; lia|].
  rewrite fmt_facts.fmt_digits_acc, length_append. simpl.
  destruct k as [|k].
  - change (base ^ Z.of_nat 1) with (base ^ 1) in Hu. rewrite Z.pow_1_r in Hu. lia.
  - assert (Hdiv : 0 <= u / base < base ^ Z.of_nat (S k)).
    { rewrite (Nat2Z.inj_succ (S k)), Z.pow_succ_r in Hu by lia.
      split; [apply Z.div_pos; lia|].
      apply Z.div_lt_upper_bound; lia. }
    specialize (IH k (u / base) Hdiv). lia.
Qed.

Lemma parse_digits_zeros (base : Z) (n : nat) (s : string) :
  1 <= base ->
  parse_digits base (zeros n +:+ s) 0 = parse_digits base s 0.
Proof.
  intros Hb. induction n as [|n IH]; [reflexivity|].
  change (zeros (S n) +:+ s) with (String "0" (zeros n +:+ s)).
  cbn [parse_digits]. change (digit_value "0") with (Some 0). cbv beta iota.
  destruct (Z.ltb_spec 0 base); [|lia].
  change (0 * base + 0) with 0. exact IH.
Qed.

(** [%9.9d] of a number of nanoseconds: nine digits that denote it. *)
Lemma verb_d_wp_nanoseconds (n : Z) :
  0 <= n < 1000000000 ->
  String.length (verb_d_wp 9 9 n) = 9%nat
  /\ parse_decimal (verb_d_wp 9 9 n) = Some n.
Proof.
  intros Hn. unfold verb_d_wp, pad_width, pad_zeros, sign.
  destruct (Z.ltb_spec n 0); [lia|]. rewrite Z.abs_eq by lia.
  assert (Hlen : (String.length (fmt_uint 10 n) <= 9)%nat)
    by (apply (length_fmt_digits 10 _ ltac:(lia) 8 n); simpl; lia).
  assert (Hnine : String.length (zeros (9 - String.length (fmt_uint 10 n))
                                 +:+ fmt_uint 10 n) = 9%nat)
    by (rewrite length_append, length_zeros; lia).
  change ("" +:+ ?x) with x. rewrite Hnine. simpl. split; [exact Hnine|].
  unfold parse_decimal. rewrite parse_digits_zeros by lia.
  apply fmt_facts.parse_fmt_uint; lia.
Qed.

End fmt_lengths.

(** X4. The time extractor panics exactly on the instants less than a
    second away from the epoch, the epoch apart; on every other instant it
    returns a token that starts with [time=] and no error. *)
Theorem time_keyword_panics_iff path info r fs :
  (panicked (timeKeywordFunc path info r fs) = true
   <-> time.UnixNano (ModTime info) <> 0
       /\ - 1000000000 < time.UnixNano (ModTime info) < 1000000000)
  /\ (panicked (timeKeywordFunc path info r fs) = false ->
      exists v, timeKeywordFunc path info r fs = returns_quietly ("time=" +:+ v)).
Proof.
  destruct (timeKeywordFunc_cases path info r fs)
    as [[Ht ->] | [(Hne & Hsmall & ->) | [Hbig ->]]]; simpl.
  - split; [split; [discriminate | intros [Hne _]; contradiction]|].
    intros _. now exists "0.000000000".
  - split; [split; [now intros _ | reflexivity]|]. discriminate.
  - split; [split; [discriminate | lia]|]. intros _. now eexists.
Qed.

Lemma time_keyword_panics_iff_witness :
  exists v, timeKeywordFunc "entry" MoreExamples.regular_file None Examples.fs_links
            = returns_quietly ("time=" +:+ v).
Proof.
  apply (proj2 (time_keyword_panics_iff "entry" MoreExamples.regular_file None
                  Examples.fs_links)).
  reflexivity.
Defined.

Lemma UnixNano_in_range (t : time.Time) :
  - 2 ^ 63 <= time.sec t * 1000000000 + time.nsec t < 2 ^ 63 ->
  time.UnixNano t = time.sec t * 1000000000 + time.nsec t.
Proof. intros Hr. unfold time.UnixNano. now apply wrap64_small. Qed.

(** X5. For a modification time from 2001-09-09 01:46:40 UTC (1e9 seconds)
    to the end of the [int64] range of nanoseconds, the token is [time=],
    the seconds in decimal, a dot and exactly nine digits that denote the
    nanoseconds. *)
Theorem time_keyword_from_2001 path info r fs :
  1000000000 <= time.sec (ModTime info) <= 9223372035 ->
  0 <= time.nsec (ModTime info) < 1000000000 ->
  exists fraction,
    timeKeywordFunc path info r fs =
      returns_quietly ("time=" +:+ fmt.verb_d (time.sec (ModTime info))
                       +:+ "." +:+ fraction)
    /\ String.length fraction = 9%nat
    /\ fmt.parse_decimal fraction = Some (time.nsec (ModTime info))
    /\ fmt.parse_decimal (fmt.verb_d (time.sec (ModTime info)))
       = Some (time.sec (ModTime info)).
Proof.
  intros Hsec Hnsec.
  set (s := time.sec (ModTime info)) in *. set (n := time.nsec (ModTime info)) in *.
  assert (Ht : time.UnixNano (ModTime info) = s * 1000000000 + n)
    by (apply UnixNano_in_range; fold s n; lia).
  assert (Hq : Z.quot (s * 1000000000 + n) 1000000000 = s).
  { rewrite Z.quot_div_nonneg by lia. symmetry.
    apply (Z.div_unique _ _ s n); lia. }
  assert (Hr : Z.rem (s * 1000000000 + n) 1000000000 = n).
  { pose proof (Z.quot_rem' (s * 1000000000 + n) 1000000000). lia. }
  exists (fmt.verb_d_wp 9 9 n).
  destruct (fmt_lengths.verb_d_wp_nanoseconds n Hnsec) as [Hlen Hparse].
  split; [|split; [exact Hlen | split; [exact Hparse|]]].
  - rewrite timeKeywordFunc_agrees by (rewrite Ht, Hq, Hr; lia).
    unfold time_fixed_divisor. now rewrite Ht, Hq, Hr.
  - apply fmt_facts.parse_decimal_verb_d. lia.
Qed.

Lemma time_keyword_from_2001_witness :
  exists fraction,
    timeKeywordFunc "entry" MoreExamples.regular_file None Examples.fs_links =
      returns_quietly ("time=" +:+ fmt.verb_d 1460000000 +:+ "." +:+ fraction)
    /\ String.length fraction = 9%nat
    /\ fmt.parse_decimal fraction = Some 123456789
    /\ fmt.parse_decimal (fmt.verb_d 1460000000) = Some 1460000000.
Proof.
  apply (time_keyword_from_2001 "entry" MoreExamples.regular_file None
           Examples.fs_links); simpl; lia.
Defined.

(** X6. For a modification time of whole seconds whose nanoseconds fit an
    [int64], [time] and [tar_time] carry the same value: the seconds, a dot
    and nine zeros. *)
Theorem time_and_tar_time_agree_on_whole_seconds path info r fs :
  time.nsec (ModTime info) = 0 ->
  - 9223372036 <= time.sec (ModTime info) <= 9223372036 ->
  let v := fmt.verb_d (time.sec (ModTime info)) +:+ ".000000000" in
  timeKeywordFunc path info r fs = returns_quietly ("time=" +:+ v)
  /\ tartimeKeywordFunc path info r fs = returns_quietly ("tar_time=" +:+ v).
Proof.
  intros Hn Hsec v. split; [|apply tartimeKeywordFunc_runs].
  subst v. set (s := time.sec (ModTime info)) in *.
  assert (Ht : time.UnixNano (ModTime info) = s * 1000000000)
    by (rewrite UnixNano_in_range; fold s; rewrite Hn; lia).
  destruct (timeKeywordFunc_cases path info r fs)
    as [[Hz ->] | [(Hne & Hsmall & _) | [Hbig ->]]];
    rewrite Ht in *.
  - assert (s = 0) as -> by lia. reflexivity.
  - lia.
  - assert (Hs : s <> 0) by lia.
    rewrite Z.quot_mul by lia.
    rewrite (Z.mul_comm s 1000000000), Z.rem_mul by assumption.
    reflexivity.
Qed.

Lemma time_and_tar_time_agree_on_whole_seconds_witness :
  timeKeywordFunc "entry" (Examples.entry 420 MoreExamples.whole_second SysOther)
    None Examples.fs_links = returns_quietly "time=1460000000.000000000"
  /\ tartimeKeywordFunc "entry" (Examples.entry 420 MoreExamples.whole_second SysOther)
    None Examples.fs_links = returns_quietly "tar_time=1460000000.000000000".
Proof.
  apply (time_and_tar_time_agree_on_whole_seconds "entry"
           (Examples.entry 420 MoreExamples.whole_second SysOther) None
           Examples.fs_links eq_refl).
  simpl. lia.
Defined.

(* ===================================================================== *)
(** * More on mode                                                       *)
(* ===================================================================== *)

(** X7. Two entries get the same mode token exactly when they have the same
    permission bits and the same set-user-id, set-group-id and sticky
    flags: the token tells these twelve bits apart and nothing else of the
    entry, of the path or of the stream. *)
Theorem mode_token_determines_bits path1 info1 r1 fs1 path2 info2 r2 fs2 :
  modeKeywordFunc path1 info1 r1 fs1 = modeKeywordFunc path2 info2 r2 fs2
  <-> os.Perm (Mode info1) = os.Perm (Mode info2)
      /\ flag_set (Mode info1) os.ModeSetuid = flag_set (Mode info2) os.ModeSetuid
      /\ flag_set (Mode info1) os.ModeSetgid = flag_set (Mode info2) os.ModeSetgid
      /\ flag_set (Mode info1) os.ModeSticky = flag_set (Mode info2) os.ModeSticky.
Proof.
  rewrite !modeKeywordFunc_word. split.
  - intros Heq. unfold returns_quietly in Heq.
    assert (Hs : fmt.verb_sharp_o (mode_word (Mode info1))
                 = fmt.verb_sharp_o (mode_word (Mode info2)))
      by (injection Heq as Heq; exact Heq).
    assert (Hw : mode_word (Mode info1) = mode_word (Mode info2)).
    { apply (f_equal fmt.parse_octal) in Hs.
      rewrite !fmt_facts.parse_octal_verb_sharp_o in Hs
        by apply mode_word_nonneg.
      now injection Hs. }
    rewrite !mode_word_sum in Hw.
    pose proof (Perm_range (Mode info1)). pose proof (Perm_range (Mode info2)).
    destruct (flag_set (Mode info1) os.ModeSetuid),
      (flag_set (Mode info2) os.ModeSetuid),
      (flag_set (Mode info1) os.ModeSetgid),
      (flag_set (Mode info2) os.ModeSetgid),
      (flag_set (Mode info1) os.ModeSticky),
      (flag_set (Mode info2) os.ModeSticky);
      repeat split; try reflexivity; lia.
  - intros (Hp & Hu & Hg & Hs). unfold mode_word. now rewrite Hp, Hu, Hg, Hs.
Qed.

(* ===================================================================== *)
(** * More on digests                                                    *)
(* ===================================================================== *)

(** X8. On a regular file, the digest extractor returns the first error of
    the stream, with the empty token, wherever in the stream it comes; with
    no error, the token is the name, [=] and the hexadecimal digest of the
    chunks written in order. *)
Theorem digest_of_stream name newHash path info s fs :
  os.IsRegular (Mode info) = true ->
  hasherKeywordFunc name newHash path info (Some s) fs =
    match stream_error s with
    | Some e => ([], Returns ("", Some e))
    | None =>
        returns_quietly
          (name +:+ "=" +:+
           fmt.verb_x_bytes (Sum newHash (write_chunks newHash (init newHash) s) []))
    end.
Proof.
  intros Hreg. rewrite hasherKeywordFunc_regular by assumption.
  destruct (copy_loop_spec newHash s (init newHash) 0) as [Hst Herr].
  destruct (copy_loop newHash (init newHash) 0 s) as [[st n] err].
  simpl in Hst, Herr. subst st err. reflexivity.
Qed.

Lemma digest_of_stream_witness :
  hasherKeywordFunc "sha1digest" Examples.sum8_New "entry"
    MoreExamples.regular_file (Some MoreExamples.failing) Examples.fs_links
  = ([], Returns ("", Some "read: input/output error")).
Proof.
  apply (digest_of_stream "sha1digest" Examples.sum8_New "entry"
           MoreExamples.regular_file MoreExamples.failing Examples.fs_links).
  reflexivity.
Defined.

Lemma write_chunks_content (h : Hash) (s : stream) :
  streaming h -> stream_error s = None ->
  forall st, write_chunks h st s = Write h st (content s).
Proof.
  intros [Hnil Happ]. induction s as [|e|bs rest IH]; simpl; intros Herr st.
  - now rewrite Hnil.
  - discriminate.
  - now rewrite IH, Happ.
Qed.

(** X9. With a hash for which writing in pieces is writing the whole, the
    digest token of a regular file read without error depends on the bytes
    of the stream only, not on how the reads cut them: it is the digest of
    the whole content. *)
Theorem digest_depends_on_content_only name newHash path info s fs :
  streaming newHash ->
  os.IsRegular (Mode info) = true ->
  stream_error s = None ->
  hasherKeywordFunc name newHash path info (Some s) fs =
    returns_quietly
      (name +:+ "=" +:+
       fmt.verb_x_bytes (Sum newHash (Write newHash (init newHash) (content s)) [])).
Proof.
  intros Hstream Hreg Herr.
  rewrite hasherKeywordFunc_regular by assumption.
  destruct (copy_loop_spec newHash s (init newHash) 0) as [Hst He].
  destruct (copy_loop newHash (init newHash) 0 s) as [[st n] err].
  simpl in Hst, He. subst st err. rewrite Herr.
  now rewrite write_chunks_content.
Qed.

Lemma streaming_sum8 : streaming Examples.sum8_New.
Proof.
  split; [reflexivity|]. intros st a b. simpl. now rewrite fold_left_app.
Qed.

Lemma digest_depends_on_content_only_witness :
  hasherKeywordFunc "md5digest" Examples.sum8_New "entry"
    MoreExamples.regular_file (Some Examples.hello) Examples.fs_links
  = hasherKeywordFunc "md5digest" Examples.sum8_New "entry"
    MoreExamples.regular_file (Some MoreExamples.hello_whole) Examples.fs_links.
Proof.
  rewrite (digest_depends_on_content_only "md5digest" Examples.sum8_New "entry"
             MoreExamples.regular_file Examples.hello Examples.fs_links
             streaming_sum8 eq_refl eq_refl).
  rewrite (digest_depends_on_content_only "md5digest" Examples.sum8_New "entry"
             MoreExamples.regular_file MoreExamples.hello_whole Examples.fs_links
             streaming_sum8 eq_refl eq_refl).
  reflexivity.
Defined.

(* ===================================================================== *)
(** * More on type                                                       *)
(* ===================================================================== *)

Lemma lor_eqb_0 (a b : Z) : (Z.lor a b =? 0) = (a =? 0) && (b =? 0).
Proof.
  destruct (Z.eqb_spec (Z.lor a b) 0) as [H0|Hn0].
  - apply Z.lor_eq_0_iff in H0 as [-> ->]. reflexivity.
  - destruct (Z.eqb_spec a 0) as [->|], (Z.eqb_spec b 0) as [->|];
      try reflexivity. now contradict Hn0.
Qed.

(** A mode is regular when none of the seven type flags is set. *)
Lemma IsRegular_flags (m : os.FileMode) :
  os.IsRegular m =
    negb (flag_set m os.ModeDir || flag_set m os.ModeSymlink
          || flag_set m os.ModeNamedPipe || flag_set m os.ModeSocket
          || flag_set m os.ModeDevice || flag_set m os.ModeCharDevice
          || flag_set m os.ModeIrregular).
Proof.
  unfold os.IsRegular, os.ModeType, flag_set.
  rewrite !Z.land_lor_distr_r, !lor_eqb_0.
  destruct (Z.land m os.ModeDir =? 0), (Z.land m os.ModeSymlink =? 0),
    (Z.land m os.ModeNamedPipe =? 0), (Z.land m os.ModeSocket =? 0),
    (Z.land m os.ModeDevice =? 0), (Z.land m os.ModeCharDevice =? 0),
    (Z.land m os.ModeIrregular =? 0); reflexivity.
Qed.

Lemma typeKeywordFunc_regular path info r fs :
  os.IsRegular (Mode info) = true ->
  typeKeywordFunc path info r fs = returns_quietly "type=file".
Proof.
  intros Hreg. unfold typeKeywordFunc. rewrite Hreg.
  rewrite IsRegular_flags in Hreg. unfold os.IsDir.
  fold (flag_set (Mode info) os.ModeDir).
  destruct (flag_set (Mode info) os.ModeDir); [discriminate Hreg | reflexivity].
Qed.

(** X10. The type extractor returns [type=file] exactly for the modes that
    are regular: a mode with any type flag, the directory flag included,
    never classifies as a file. *)
Theorem type_file_iff_regular path info r fs :
  typeKeywordFunc path info r fs = returns_quietly "type=file"
  <-> os.IsRegular (Mode info) = true.
Proof.
  unfold typeKeywordFunc, returns_quietly.
  rewrite IsRegular_flags. unfold os.IsDir. fold (flag_set (Mode info) os.ModeDir).
  fold (flag_set (Mode info) os.ModeSocket).
  fold (flag_set (Mode info) os.ModeSymlink).
  fold (flag_set (Mode info) os.ModeNamedPipe).
  fold (flag_set (Mode info) os.ModeDevice).
  fold (flag_set (Mode info) os.ModeCharDevice).
  destruct (flag_set (Mode info) os.ModeDir),
    (flag_set (Mode info) os.ModeSymlink),
    (flag_set (Mode info) os.ModeNamedPipe),
    (flag_set (Mode info) os.ModeSocket),
    (flag_set (Mode info) os.ModeDevice),
    (flag_set (Mode info) os.ModeCharDevice),
    (flag_set (Mode info) os.ModeIrregular);
    simpl; split; intros Heq; try reflexivity; discriminate Heq.
Qed.

(** X11. The type extractor returns the empty token exactly for the modes
    that have none of the directory, socket, symlink, named pipe and device
    flags but have the character-device flag or the irregular flag: these
    entries are not regular files and get no type. *)
Theorem type_empty_iff path info r fs :
  typeKeywordFunc path info r fs = returns_quietly ""
  <-> flag_set (Mode info) os.ModeDir = false
      /\ flag_set (Mode info) os.ModeSocket = false
      /\ flag_set (Mode info) os.ModeSymlink = false
      /\ flag_set (Mode info) os.ModeNamedPipe = false
      /\ flag_set (Mode info) os.ModeDevice = false
      /\ (flag_set (Mode info) os.ModeCharDevice = true
          \/ flag_set (Mode info) os.ModeIrregular = true).
Proof.
  unfold typeKeywordFunc, returns_quietly.
  rewrite IsRegular_flags. unfold os.IsDir. fold (flag_set (Mode info) os.ModeDir).
  fold (flag_set (Mode info) os.ModeSocket).
  fold (flag_set (Mode info) os.ModeSymlink).
  fold (flag_set (Mode info) os.ModeNamedPipe).
  fold (flag_set (Mode info) os.ModeDevice).
  fold (flag_set (Mode info) os.ModeCharDevice).
  destruct (flag_set (Mode info) os.ModeDir),
    (flag_set (Mode info) os.ModeSymlink),
    (flag_set (Mode info) os.ModeNamedPipe),
    (flag_set (Mode info) os.ModeSocket),
    (flag_set (Mode info) os.ModeDevice),
    (flag_set (Mode info) os.ModeCharDevice),
    (flag_set (Mode info) os.ModeIrregular);
    simpl; split; intros Heq;
    try discriminate Heq; try tauto;
    try (destruct Heq as (? & ? & ? & ? & ? & [? | ?]); discriminate).
Qed.

(** With at most one classification, two classifications that apply are
    the same. *)
Lemma well_formed_unique (m : os.FileMode) (k1 k2 : kind) :
  well_formed m -> has_kind m k1 = true -> has_kind m k2 = true -> k1 = k2.
Proof.
  unfold well_formed, check_order.
  generalize (has_kind m). intros f Hwf H1 H2. simpl in Hwf.
  destruct k1, k2; try reflexivity; rewrite H1, H2 in Hwf;
    destruct (f KDir), (f KFile), (f KSocket), (f KLink), (f KFifo),
      (f KChar), (f KDevice);
    simpl in Hwf; try discriminate; lia.
Qed.

(** X12. On a well-formed entry the order of the checks does not matter:
    the type extractor returns what the first match gives in any order that
    lists every classification. *)
Theorem type_keyword_any_order path info r fs (order : list kind) :
  well_formed (Mode info) ->
  (forall k, In k order) ->
  typeKeywordFunc path info r fs =
    returns_quietly (first_match (Mode info) order).
Proof.
  intros Hwf Hall. rewrite typeKeywordFunc_first_match.
  apply (f_equal returns_quietly). unfold first_match.
  destruct (List.find (has_kind (Mode info)) check_order) as [k|] eqn:Hfind.
  - apply find_some in Hfind as [_ Hk].
    destruct (List.find (has_kind (Mode info)) order) as [k'|] eqn:Hfind'.
    + apply find_some in Hfind' as [_ Hk'].
      now rewrite (well_formed_unique _ k k' Hwf Hk Hk').
    + rewrite (find_none _ _ Hfind' k (Hall k)) in Hk. discriminate.
  - destruct (List.find (has_kind (Mode info)) order) as [k'|] eqn:Hfind';
      [|reflexivity].
    apply find_some in Hfind' as [_ Hk'].
    rewrite (find_none _ _ Hfind k') in Hk'; [discriminate|].
    unfold check_order. destruct k'; simpl; tauto.
Qed.

Lemma type_keyword_any_order_witness :
  typeKeywordFunc "entry" Examples.directory None Examples.fs_links =
    returns_quietly
      (first_match (Mode Examples.directory)
         [KDevice; KChar; KFifo; KLink; KSocket; KFile; KDir]).
Proof.
  apply (type_keyword_any_order "entry" Examples.directory None Examples.fs_links
           [KDevice; KChar; KFifo; KLink; KSocket; KFile; KDir]
           well_formed_directory).
  intros k. destruct k; simpl; tauto.
Defined.

Section ContentKeywords.

Context `{Collaborators}.

(** X13. Whenever [cksum] or a digest keyword does anything but return the
    empty token with no error (a token, an error or a panic), the entry is
    one the type extractor calls [type=file]. *)
Theorem content_keyword_runs_only_on_type_file
    (k : string) (f : KeywordFunc) path info r fs path' r' fs' :
  In k ("cksum" :: digest_keywords) ->
  KeywordFuncs !! k = Some f ->
  f path info r fs <> returns_quietly "" ->
  typeKeywordFunc path' info r' fs' = returns_quietly "type=file".
Proof.
  intros Hin Hlook Hrun. apply typeKeywordFunc_regular.
  destruct (os.IsRegular (Mode info)) eqn:Hreg; [reflexivity|].
  exfalso. apply Hrun. destruct Hin as [<- | Hin].
  - assert (Hc : KeywordFuncs !! "cksum" = Some cksumKeywordFunc) by reflexivity.
    rewrite Hc in Hlook. injection Hlook as <-.
    now apply cksumKeywordFunc_not_regular.
  - unfold digest_keywords in Hin. apply in_map_iff in Hin.
    destruct Hin as ([k' c] & <- & Hin). simpl in Hlook.
    destruct (digest_lookup k' c Hin) as [newHash Hd].
    rewrite Hd in Hlook. injection Hlook as <-.
    now apply hasherKeywordFunc_not_regular.
Qed.

End ContentKeywords.

Lemma content_keyword_runs_only_on_type_file_witness :
  typeKeywordFunc "other" MoreExamples.regular_file None Examples.fs_broken
    = returns_quietly "type=file".
Proof.
  apply (@content_keyword_runs_only_on_type_file Examples.toy "sha1"
           (hasherKeywordFunc "sha1digest" Examples.sum8_New)
           "entry" MoreExamples.regular_file (Some Examples.hello) Examples.fs_links
           "other" None Examples.fs_broken).
  - unfold digest_keywords, digest_names. simpl. tauto.
  - reflexivity.
  - discriminate.
Defined.

(* ===================================================================== *)
(** * More on link                                                       *)
(* ===================================================================== *)

(** X14. The link extractor calls [os.Readlink] at most once, on the path
    it was given, and only for an entry that does not come from an archive
    and whose mode is a symlink; for every other entry its result is the
    same in every filesystem. *)
Theorem link_reads_only_live_symlinks path info r fs :
  calls (linkKeywordFunc path info r fs) =
    (if archive_origin info || negb (flag_set (Mode info) os.ModeSymlink)
     then [] else [EvReadlink path])
  /\ (archive_origin info || negb (flag_set (Mode info) os.ModeSymlink) = true ->
      forall fs', linkKeywordFunc path info r fs' = linkKeywordFunc path info r fs).
Proof.
  split.
  - rewrite linkKeywordFunc_cases. unfold archive_origin.
    destruct (Sys info) as [|h|];
      [| now destruct (String.eqb (tar.Linkname h) "") |];
      now destruct (flag_set (Mode info) os.ModeSymlink).
  - intros Hquiet fs'. rewrite !linkKeywordFunc_cases.
    unfold archive_origin in Hquiet.
    destruct (Sys info) as [|h|]; try reflexivity;
      destruct (flag_set (Mode info) os.ModeSymlink);
      first [reflexivity | discriminate Hquiet].
Qed.

Lemma link_reads_only_live_symlinks_witness :
  calls (linkKeywordFunc "entry" Examples.live_symlink None Examples.fs_links)
    = [EvReadlink "entry"]
  /\ linkKeywordFunc "entry" (Examples.archive_symlink "target.txt") None
        Examples.fs_links
      = linkKeywordFunc "entry" (Examples.archive_symlink "target.txt") None
          Examples.fs_broken.
Proof.
  split.
  - apply (proj1 (link_reads_only_live_symlinks "entry" Examples.live_symlink
                    None Examples.fs_links)).
  - apply (proj2 (link_reads_only_live_symlinks "entry"
                    (Examples.archive_symlink "target.txt") None
                    Examples.fs_broken) eq_refl Examples.fs_links).
Defined.
